(** * Startup protocol of lunatic abstract processes

    Shallow embedding of [src/src/ap/builder.rs] ([AbstractProcessBuilder]:
    the chaining methods and the three terminal operations [start],
    [start_timeout] and [start_as]) and of the example counter process
    [src/examples/supervised_abstract_process/counter_abstract_process.rs].

    The host runtime (tag generation, spawning, the mailbox) is consumed by the
    builder as opaque primitives.  It is modelled by a [Runtime] record of
    oracles giving the answer of each primitive, and by a small state monad
    that threads the tag counter and records every primitive call in a trace.
    A Rust panic ([unimplemented!], [unreachable!]) is an [Abort] outcome. *)

From Stdlib Require Import ZArith Lia String List Bool.
Import ListNotations.

Open Scope Z_scope.

(** ** Runtime data *)

(** [Tag]: a unique 64-bit identifier handed out by the host. *)
Definition Tag := Z.

(** [Process<M, S>]: a node id and a process id. *)
Record Process := mkProcess { node_id : Z; process_id : Z }.

(** [ProcessRef<T>]: a typed wrapper around a [Process]. *)
Record ProcessRef := mkProcessRef { process : Process }.

(** [&'a ProcessConfig]: a borrowed configuration, identified by its address. *)
Definition ConfigRef := Z.

(** [std::time::Duration], in milliseconds. *)
Definition Duration := Z.

(** Rust's [Result]. *)
Inductive result (T Er : Type) : Type :=
| Ok (t : T)
| Err (e : Er).
Arguments Ok {T Er} t.
Arguments Err {T Er} e.

(** [StartupError<T>], with [E] standing for [T::Error]. *)
Inductive StartupError (E : Type) : Type :=
| Custom (e : E)
| InitPanicked
| TimedOut
| NameAlreadyRegistered (p : ProcessRef).
Arguments Custom {E} e.
Arguments InitPanicked {E}.
Arguments TimedOut {E}.
Arguments NameAlreadyRegistered {E} p.

(** [MailboxError]: the builder only inspects [TimedOut]; every other
    variant of the runtime's enum is represented by its discriminant. *)
Inductive MailboxError :=
| MailboxTimedOut
| MailboxOther (code : Z).

(** [LunaticError]: the builder only inspects [NameAlreadyRegistered];
    every other variant is represented by its discriminant. *)
Inductive LunaticError :=
| LunaticNameAlreadyRegistered (node_id process_id : Z)
| LunaticOther (code : Z).

(** A Rust panic, with the macro that raised it and its message. *)
Inductive panic :=
| Unimplemented (msg : string)
| Unreachable (msg : string)
| ArithmeticOverflow (msg : string).

(** Outcome of a computation: a returned value or a panic. *)
Inductive outcome (X : Type) : Type :=
| Done (x : X)
| Abort (p : panic).
Arguments Done {X} x.
Arguments Abort {X} p.

Section Protocol.

(** [A] stands for [T::Arg], [E] for [T::Error]. *)
Variables A E : Type.

(** The payload handed to [lifecycles::entry::<T>]: [(this, init_tag, arg)]. *)
Definition EntryData : Type := (Process * Tag * A)%type.

(** The six low-level spawn primitives used by the builder, with their
    arguments.  The entry function is always [lifecycles::entry::<T>] and is
    left implicit. *)
Inductive SpawnCall :=
| SpawnLinkConfigTag (config : ConfigRef) (data : EntryData) (tag : Tag)
| SpawnLinkTag (data : EntryData) (tag : Tag)
| SpawnNodeConfig (node : Z) (config : ConfigRef) (data : EntryData)
| SpawnNode (node : Z) (data : EntryData)
| SpawnConfig (config : ConfigRef) (data : EntryData)
| Spawn (data : EntryData).

(** The init reply carried on the handshake tag. *)
Definition InitReply : Type := result unit (StartupError E).

(** A call made to the host runtime, as recorded in the trace. *)
Inductive Event :=
| EvTagNew (t : Tag)
| EvSpawn (c : SpawnCall)
| EvNameSpawn (name : string) (c : SpawnCall)
| EvTagReceive (tags : list Tag)
| EvTagReceiveTimeout (tags : list Tag) (timeout : Duration).

(** Answers of the host runtime. *)
Record Runtime := mkRuntime {
  rt_this : Process;
  rt_spawn : SpawnCall -> Process;
  rt_name_spawn : string -> SpawnCall -> result Process LunaticError;
  rt_tag_receive : list Tag -> InitReply;
  rt_tag_receive_timeout : list Tag -> Duration -> result InitReply MailboxError
}.

(** State threaded through the calls: the next tag the host hands out, and
    the trace of runtime calls so far. *)
Record St := mkSt { st_next_tag : Tag; st_trace : list Event }.

Definition M (X : Type) : Type := St -> outcome X * St.

Definition ret {X} (x : X) : M X := fun s => (Done x, s).

Definition bind {X Y} (m : M X) (f : X -> M Y) : M Y :=
  fun s => match m s with
           | (Done x, s') => f x s'
           | (Abort p, s') => (Abort p, s')
           end.

Definition fail {X} (p : panic) : M X := fun s => (Abort p, s).

Definition emit (ev : Event) (s : St) : St :=
  mkSt (st_next_tag s) (st_trace s ++ [ev]).

Notation "'let*' x := m 'in' f" := (bind m (fun x => f))
  (at level 200, x name, m at level 100, f at level 200).

(** *** Host primitives *)

(** [Tag::new()]: the host hands out the next tag. *)
Definition tag_new : M Tag :=
  fun s => (Done (st_next_tag s),
            mkSt (st_next_tag s + 1) (st_trace s ++ [EvTagNew (st_next_tag s)])).

(** [Process::spawn*]: the anonymous spawn primitives. *)
Definition spawn (rt : Runtime) (c : SpawnCall) : M Process :=
  fun s => (Done (rt_spawn rt c), emit (EvSpawn c) s).

(** [Process::name_spawn*]: spawn and register under [name] in one step. *)
Definition name_spawn (rt : Runtime) (name : string) (c : SpawnCall)
  : M (result Process LunaticError) :=
  fun s => (Done (rt_name_spawn rt name c), emit (EvNameSpawn name c) s).

(** [Mailbox::tag_receive]: blocks until a message with one of [tags]. *)
Definition tag_receive (rt : Runtime) (tags : list Tag) : M InitReply :=
  fun s => (Done (rt_tag_receive rt tags), emit (EvTagReceive tags) s).

(** [Mailbox::tag_receive_timeout]. *)
Definition tag_receive_timeout (rt : Runtime) (tags : list Tag) (timeout : Duration)
  : M (result InitReply MailboxError) :=
  fun s => (Done (rt_tag_receive_timeout rt tags timeout),
            emit (EvTagReceiveTimeout tags timeout) s).

(** [process_name::<T, T::Serializer>(ProcessType::ProcessRef, name)]: the
    registry key derived from the user's name (defined outside the builder). *)
Variable process_name : string -> string.

(** ** [AbstractProcessBuilder] *)

(** The builder; [phantom] carries no data and is left out. *)
Record AbstractProcessBuilder := mkBuilder {
  link : option Tag;
  config : option ConfigRef;
  node : option Z
}.

(** [AbstractProcessBuilder::new]. *)
Definition new : AbstractProcessBuilder :=
  mkBuilder None None None.

(** [AbstractProcessBuilder::link] (the method; [link] is the field). *)
Definition link_ (self : AbstractProcessBuilder) : M AbstractProcessBuilder :=
  let* t := tag_new in
  ret (mkBuilder (Some t) (config self) (node self)).

(** [AbstractProcessBuilder::link_with]. *)
Definition link_with (self : AbstractProcessBuilder) (tag : Tag) : AbstractProcessBuilder :=
  mkBuilder (Some tag) (config self) (node self).

(** [AbstractProcessBuilder::configure]. *)
Definition configure (self : AbstractProcessBuilder) (c : ConfigRef) : AbstractProcessBuilder :=
  mkBuilder (link self) (Some c) (node self).

(** [AbstractProcessBuilder::on_node]. *)
Definition on_node (self : AbstractProcessBuilder) (n : Z) : AbstractProcessBuilder :=
  mkBuilder (link self) (config self) (Some n).

Definition unsupported_msg : string := "Linking across nodes is not supported yet".

Definition unreachable_timeout_msg : string :=
  "tag_receive_timeout should panic in case of other errors".

(** [AbstractProcessBuilder::start]. *)
Definition start (rt : Runtime) (self : AbstractProcessBuilder) (arg : A)
  : M (result ProcessRef (StartupError E)) :=
  let* init_tag := tag_new in
  let this := rt_this rt in
  let entry_data := (this, init_tag, arg) in
  let* process := match link self, config self, node self with
    | Some _, _, Some _node => fail (Unimplemented unsupported_msg)
    | Some tag, Some config, None => spawn rt (SpawnLinkConfigTag config entry_data tag)
    | Some tag, None, None => spawn rt (SpawnLinkTag entry_data tag)
    | None, Some config, Some node => spawn rt (SpawnNodeConfig node config entry_data)
    | None, None, Some node => spawn rt (SpawnNode node entry_data)
    | None, Some config, None => spawn rt (SpawnConfig config entry_data)
    | None, None, None => spawn rt (Spawn entry_data)
    end in
  (* Wait on `init()` *)
  let* m := tag_receive rt [init_tag] in
  match m with
  | Ok tt => ret (Ok (mkProcessRef process))
  | Err err => ret (Err err)
  end.

(** [AbstractProcessBuilder::start_timeout]. *)
Definition start_timeout (rt : Runtime) (self : AbstractProcessBuilder) (arg : A)
  (timeout : Duration) : M (result ProcessRef (StartupError E)) :=
  let* init_tag := tag_new in
  let this := rt_this rt in
  let entry_data := (this, init_tag, arg) in
  let* process := match link self, config self, node self with
    | Some _, _, Some _node => fail (Unimplemented unsupported_msg)
    | Some tag, Some config, None => spawn rt (SpawnLinkConfigTag config entry_data tag)
    | Some tag, None, None => spawn rt (SpawnLinkTag entry_data tag)
    | None, Some config, Some node => spawn rt (SpawnNodeConfig node config entry_data)
    | None, None, Some node => spawn rt (SpawnNode node entry_data)
    | None, Some config, None => spawn rt (SpawnConfig config entry_data)
    | None, None, None => spawn rt (Spawn entry_data)
    end in
  (* Wait on `init()` *)
  let* r := tag_receive_timeout rt [init_tag] timeout in
  match r with
  | Ok m =>
      match m with
      | Ok tt => ret (Ok (mkProcessRef process))
      | Err err => ret (Err err)
      end
  | Err err =>
      match err with
      | MailboxTimedOut => ret (Err TimedOut)
      | _ => fail (Unreachable unreachable_timeout_msg)
      end
  end.

(** [AbstractProcessBuilder::start_as]; [name] is [name.process_name()]. *)
Definition start_as (rt : Runtime) (self : AbstractProcessBuilder) (name : string) (arg : A)
  : M (result ProcessRef (StartupError E)) :=
  let name := process_name name in
  let* init_tag := tag_new in
  let this := rt_this rt in
  let entry_data := (this, init_tag, arg) in
  let* process := match link self, config self, node self with
    | Some _, _, Some _node => fail (Unimplemented unsupported_msg)
    | Some tag, Some config, None => name_spawn rt name (SpawnLinkConfigTag config entry_data tag)
    | Some tag, None, None => name_spawn rt name (SpawnLinkTag entry_data tag)
    | None, Some config, Some node => name_spawn rt name (SpawnNodeConfig node config entry_data)
    | None, None, Some node => name_spawn rt name (SpawnNode node entry_data)
    | None, Some config, None => name_spawn rt name (SpawnConfig config entry_data)
    | None, None, None => name_spawn rt name (Spawn entry_data)
    end in
  match process with
  | Ok process =>
      (* Wait on `init()` *)
      let* m := tag_receive rt [init_tag] in
      match m with
      | Ok tt => ret (Ok (mkProcessRef process))
      | Err err => ret (Err err)
      end
  | Err (LunaticNameAlreadyRegistered node_id process_id) =>
      (* If a process under this name already exists, return it. *)
      ret (Err (NameAlreadyRegistered (mkProcessRef (mkProcess node_id process_id))))
  | _ => fail (Unreachable "")
  end.

End Protocol.

(** ** The example counter process *)

Module CounterExample.

Definition u32_modulus : Z := 4294967296.

(** [u32::MAX]. *)
Definition u32_max : Z := u32_modulus - 1.

(** Rust's integer overflow behaviour: with [overflow-checks] (debug builds)
    an overflowing [+=] panics, without them (release builds) it wraps. *)
Inductive OverflowChecks :=
| ChecksOff
| ChecksOn.

(** [a + b] on [u32], for operands in range. *)
Definition u32_add (mode : OverflowChecks) (a b : Z) : outcome Z :=
  let r := a + b in
  if r <=? u32_max then Done r
  else match mode with
       | ChecksOff => Done (r mod u32_modulus)
       | ChecksOn => Abort (ArithmeticOverflow "attempt to add with overflow")
       end.

(** [pub struct Counter(u32);] *)
Record Counter := mkCounter { c0 : Z }.

(** [#[init] fn init(_: ProcessRef<Self>, start: u32) -> Self]. *)
Definition init (_ : ProcessRef) (start : Z) : Counter := mkCounter start.

(** [#[handle_message] fn increment(&mut self) { self.0 += 1; }]. *)
Definition increment (mode : OverflowChecks) (self : Counter) : outcome Counter :=
  match u32_add mode (c0 self) 1 with
  | Done v => Done (mkCounter v)
  | Abort p => Abort p
  end.

(** [#[handle_request] fn count(&self) -> u32 { self.0 }]. *)
Definition count (self : Counter) : Z := c0 self.

(** Sequencing of handlers on the unit's state. *)
Definition and_then {X Y} (o : outcome X) (f : X -> outcome Y) : outcome Y :=
  match o with
  | Done x => f x
  | Abort p => Abort p
  end.

End CounterExample.

(** ** Spawn table of the spec

    The spec's matrix: {unlinked, linked} x {default, custom config} x
    {local, remote}, minus linked x remote, each supported combination
    mapped to one spawn primitive. *)

Inductive Primitive :=
| PSpawn
| PSpawnConfig
| PSpawnNode
| PSpawnNodeConfig
| PSpawnLinkTag
| PSpawnLinkConfigTag.

Definition spec_primitive (linked configured remote : bool) : option Primitive :=
  match linked, configured, remote with
  | true, _, true => None
  | true, true, false => Some PSpawnLinkConfigTag
  | true, false, false => Some PSpawnLinkTag
  | false, true, true => Some PSpawnNodeConfig
  | false, false, true => Some PSpawnNode
  | false, true, false => Some PSpawnConfig
  | false, false, false => Some PSpawn
  end.

Definition all_triples : list (bool * bool * bool) :=
  flat_map (fun l => flat_map (fun c => map (fun n => (l, c, n)) [false; true])
                              [false; true]) [false; true].

Definition supported_triples : list (bool * bool * bool) :=
  filter (fun '(l, c, n) => if spec_primitive l c n then true else false) all_triples.

Section Calls.
Variable A : Type.

Definition call_primitive (c : SpawnCall A) : Primitive :=
  match c with
  | SpawnLinkConfigTag _ _ _ _ => PSpawnLinkConfigTag
  | SpawnLinkTag _ _ _ => PSpawnLinkTag
  | SpawnNodeConfig _ _ _ _ => PSpawnNodeConfig
  | SpawnNode _ _ _ => PSpawnNode
  | SpawnConfig _ _ _ => PSpawnConfig
  | Spawn _ _ => PSpawn
  end.

Definition call_data (c : SpawnCall A) : EntryData A :=
  match c with
  | SpawnLinkConfigTag _ _ d _ | SpawnLinkTag _ d _ | SpawnNodeConfig _ _ _ d
  | SpawnNode _ _ d | SpawnConfig _ _ d | Spawn _ d => d
  end.

Definition call_link (c : SpawnCall A) : option Tag :=
  match c with
  | SpawnLinkConfigTag _ _ _ t | SpawnLinkTag _ _ t => Some t
  | _ => None
  end.

Definition call_config (c : SpawnCall A) : option ConfigRef :=
  match c with
  | SpawnLinkConfigTag _ k _ _ | SpawnNodeConfig _ _ k _ | SpawnConfig _ k _ => Some k
  | _ => None
  end.

Definition call_node (c : SpawnCall A) : option Z :=
  match c with
  | SpawnNodeConfig _ n _ _ | SpawnNode _ n _ => Some n
  | _ => None
  end.

End Calls.

(** A builder whose options avoid the unsupported linked + remote case. *)
Definition supported (b : AbstractProcessBuilder) : bool :=
  match link b, node b with
  | Some _, Some _ => false
  | _, _ => true
  end.

Definition is_some {X} (o : option X) : bool :=
  match o with Some _ => true | None => false end.

Arguments tag_new {A}.
Arguments link_ {A} self _.
Arguments start {A E} rt self arg _.
Arguments start_timeout {A E} rt self arg timeout _.
Arguments start_as {A E} process_name rt self name arg _.
Arguments mkSt {A} st_next_tag st_trace.
Arguments st_next_tag {A} s.
Arguments st_trace {A} s.
Arguments EvTagNew {A} t.
Arguments EvSpawn {A} c.
Arguments EvNameSpawn {A} name c.
Arguments EvTagReceive {A} tags.
Arguments EvTagReceiveTimeout {A} tags timeout.
Arguments rt_this {A E} r.
Arguments rt_spawn {A E} r _.
Arguments rt_name_spawn {A E} r _ _.
Arguments rt_tag_receive {A E} r _.
Arguments rt_tag_receive_timeout {A E} r _ _.
Arguments SpawnLinkConfigTag {A} config data tag.
Arguments SpawnLinkTag {A} data tag.
Arguments SpawnNodeConfig {A} node config data.
Arguments SpawnNode {A} node data.
Arguments SpawnConfig {A} config data.
Arguments Spawn {A} data.
Arguments call_primitive {A} c.
Arguments call_data {A} c.
Arguments call_link {A} c.
Arguments call_config {A} c.
Arguments call_node {A} c.

(** The state after a call that only generated its handshake tag. *)
Definition after_tag {A} (s : St A) : St A :=
  mkSt (st_next_tag s + 1) (st_trace s ++ [EvTagNew (st_next_tag s)]).

(** ** Concrete runs *)

Module Demo.

(** A runtime where every spawn succeeds and init replies [Ok(())]. *)
Definition rt_ok : Runtime Z string :=
  mkRuntime Z string (mkProcess 0 1) (fun _ => mkProcess 0 2)
    (fun _ _ => Ok (mkProcess 0 2)) (fun _ => Ok tt) (fun _ _ => Ok (Ok tt)).

(** A runtime where init fails with [Custom("bad-arg")] and the timed receive
    times out. *)
Definition rt_bad_arg : Runtime Z string :=
  mkRuntime Z string (mkProcess 0 1) (fun _ => mkProcess 0 2)
    (fun _ _ => Ok (mkProcess 0 2)) (fun _ => Err (Custom "bad-arg"%string))
    (fun _ _ => Err MailboxTimedOut).

(** A runtime where the name is held by process 9 on node 3. *)
Definition rt_taken : Runtime Z string :=
  mkRuntime Z string (mkProcess 0 1) (fun _ => mkProcess 0 2)
    (fun _ _ => Err (LunaticNameAlreadyRegistered 3 9)) (fun _ => Ok tt)
    (fun _ _ => Ok (Ok tt)).

Definition s0 : St Z := mkSt 100 [].

Definition name_key (n : string) : string := ("ProcessRef + " ++ n)%string.

(** [on_node(7)] with [link()]. *)
Definition b_linked_remote : AbstractProcessBuilder :=
  on_node (link_with new 5) 7.

(** [link().configure(cfg)]. *)
Definition b_linked_config : AbstractProcessBuilder :=
  configure (link_with new 5) 42.

End Demo.

Import Demo.

(** [n] [increment] messages handled in sequence by the counter's dispatch
    loop, stopping at the first panic. *)
Fixpoint increments (mode : CounterExample.OverflowChecks) (n : nat)
  (c : CounterExample.Counter) : outcome CounterExample.Counter :=
  match n with
  | O => Done c
  | S n' => CounterExample.and_then (CounterExample.increment mode c) (increments mode n')
  end.

Create HintDb builder.
Hint Unfold start start_timeout start_as bind ret fail tag_new spawn name_spawn
  tag_receive tag_receive_timeout emit after_tag supported : builder.

(** Case analysis on the three options of a builder, then evaluation. *)
Ltac builder_cases b :=
  destruct b as [[?l|] [?k|] [?n|]];
  cbn [link config node supported is_some spec_primitive] in *;
  try discriminate.

Section Proofs.
Variables A E : Type.
Variable process_name : string -> string.

(** C1: with both a link and a node set, [start], [start_timeout] and
    [start_as] panic with the unsupported-combination message; the only
    runtime call made is the generation of the handshake tag: no spawn, no
    name registration and no receive. *)
Theorem link_on_node_fails_before_spawn (rt : Runtime A E) (b : AbstractProcessBuilder)
  (arg : A) (timeout : Duration) (name : string) (s : St A) :
  link b <> None -> node b <> None ->
  start rt b arg s = (Abort (Unimplemented unsupported_msg), after_tag s) /\
  start_timeout rt b arg timeout s = (Abort (Unimplemented unsupported_msg), after_tag s) /\
  start_as process_name rt b name arg s = (Abort (Unimplemented unsupported_msg), after_tag s).
Proof.
  intros Hl Hn.
  destruct b as [[l|] k [n|]]; cbn [link node] in *; try congruence.
  destruct k; repeat split.
Qed.

(** C5: the (link, config, node) triple resolves against the spec's table of
    six supported combinations, each naming a distinct primitive; every
    supported builder makes exactly one spawn call, of that primitive, with
    the builder's own link tag, config and node, and with the payload
    (caller handle, handshake tag generated first in the call, argument).
    [start_timeout] makes the same call, and [start_as] makes the same call
    through the naming-aware primitive. *)
Theorem spawn_matrix (rt : Runtime A E) (b : AbstractProcessBuilder) (arg : A)
  (timeout : Duration) (name : string) (s : St A) :
  length supported_triples = 6%nat /\
  (forall l k n l' k' n' p, spec_primitive l k n = Some p ->
     spec_primitive l' k' n' = Some p -> (l, k, n) = (l', k', n')) /\
  match spec_primitive (is_some (link b)) (is_some (config b)) (is_some (node b)) with
  | None =>
      start rt b arg s = (Abort (Unimplemented unsupported_msg), after_tag s) /\
      start_timeout rt b arg timeout s = (Abort (Unimplemented unsupported_msg), after_tag s) /\
      start_as process_name rt b name arg s = (Abort (Unimplemented unsupported_msg), after_tag s)
  | Some p =>
      let t0 := st_next_tag s in
      exists c : SpawnCall A,
        call_primitive c = p /\
        call_data c = (rt_this rt, t0, arg) /\
        call_link c = link b /\ call_config c = config b /\ call_node c = node b /\
        st_trace (snd (start rt b arg s))
          = st_trace s ++ [EvTagNew t0; EvSpawn c; EvTagReceive [t0]] /\
        st_trace (snd (start_timeout rt b arg timeout s))
          = st_trace s ++ [EvTagNew t0; EvSpawn c; EvTagReceiveTimeout [t0] timeout] /\
        exists rest, st_trace (snd (start_as process_name rt b name arg s))
          = st_trace s ++ [EvTagNew t0; EvNameSpawn (process_name name) c] ++ rest
  end.
Proof.
  split; [reflexivity|].
  split.
  { intros [] [] [] [] [] [] p H1 H2; cbn in *; congruence. }
  builder_cases b; try (repeat split; reflexivity);
    autounfold with builder; cbn;
    match goal with |- context [rt_spawn _ ?c] => exists c end;
    repeat (split; [reflexivity|]);
    destruct (rt_tag_receive _ _) as [[]|];
    destruct (rt_tag_receive_timeout _ _ _) as [[[]|]|[]];
    (split; [cbn; rewrite <- !app_assoc; reflexivity|]);
    (split; [cbn; rewrite <- !app_assoc; reflexivity|]);
    destruct (rt_name_spawn _ _ _) as [?|[?|?]];
    cbn; eexists; rewrite <- !app_assoc; reflexivity.
Qed.

(** C2: for a supported builder, [start] returns [Ok] with a handle to the
    spawned process exactly when the init reply on the handshake tag is
    [Ok(())], and returns the reply's error unchanged otherwise. *)
Theorem start_propagates_init_reply (rt : Runtime A E) (b : AbstractProcessBuilder)
  (arg : A) (s : St A) :
  supported b = true ->
  let reply := rt_tag_receive rt [st_next_tag s] in
  exists c : SpawnCall A,
    In (EvSpawn c) (st_trace (snd (start rt b arg s))) /\
    fst (start rt b arg s)
      = match reply with
        | Ok _ => Done (Ok (mkProcessRef (rt_spawn rt c)))
        | Err e => Done (Err e)
        end /\
    ((exists h, fst (start rt b arg s) = Done (Ok h)) <-> reply = Ok tt) /\
    (forall e, reply = Err e -> fst (start rt b arg s) = Done (Err e)).
Proof.
  intros Hs reply; subst reply.
  builder_cases b; autounfold with builder; cbn;
    match goal with |- context [rt_spawn _ ?c] => exists c end;
    destruct (rt_tag_receive _ _) as [[]|e]; cbn;
    (split; [rewrite <- !app_assoc; apply in_or_app; right; cbn; auto|]);
    (split; [reflexivity|]);
    (split; [first [ split; [intros _; reflexivity | intros _; eexists; reflexivity]
                   | split; [intros [h Hh]; discriminate | intros Hh; discriminate] ]|]);
    intros e' He'; congruence.
Qed.

(** C3: when the timed receive fails because the wait interval was exceeded,
    [start_timeout] returns [Err(TimedOut)]; any other receive failure hits
    the [unreachable!] branch and panics. *)
Theorem start_timeout_receive_failure (rt : Runtime A E) (b : AbstractProcessBuilder)
  (arg : A) (timeout : Duration) (s : St A) :
  supported b = true ->
  (rt_tag_receive_timeout rt [st_next_tag s] timeout = Err MailboxTimedOut ->
     fst (start_timeout rt b arg timeout s) = Done (Err TimedOut)) /\
  (forall err, err <> MailboxTimedOut ->
     rt_tag_receive_timeout rt [st_next_tag s] timeout = Err err ->
     fst (start_timeout rt b arg timeout s) = Abort (Unreachable unreachable_timeout_msg)).
Proof.
  intros Hs.
  builder_cases b; autounfold with builder; cbn;
    (split; [intros H; rewrite H; reflexivity
            | intros [|code] Hne H; [congruence | rewrite H; reflexivity]]).
Qed.

(** C4: when the named spawn reports that the name is taken, [start_as]
    returns [Err(NameAlreadyRegistered(h))] with [h] built from the holder's
    node id and process id, and returns without receiving on the handshake
    tag. *)
Theorem start_as_name_taken (rt : Runtime A E) (b : AbstractProcessBuilder)
  (name : string) (arg : A) (s : St A) (nid pid : Z) :
  supported b = true ->
  (forall c, rt_name_spawn rt (process_name name) c = Err (LunaticNameAlreadyRegistered nid pid)) ->
  exists c : SpawnCall A,
    start_as process_name rt b name arg s =
      (Done (Err (NameAlreadyRegistered (mkProcessRef (mkProcess nid pid)))),
       mkSt (st_next_tag s + 1)
            (st_trace s ++ [EvTagNew (st_next_tag s); EvNameSpawn (process_name name) c])).
Proof.
  intros Hs Hn.
  builder_cases b; autounfold with builder; cbn;
    match goal with |- context [rt_name_spawn _ _ ?c] => exists c; rewrite (Hn c) end;
    cbn; rewrite <- app_assoc; reflexivity.
Qed.

(** C6: when the init reply arrives before the deadline, [start_timeout]
    returns what [start] returns for the same reply. *)
Theorem start_timeout_agrees_with_start (rt : Runtime A E) (b : AbstractProcessBuilder)
  (arg : A) (timeout : Duration) (s : St A) :
  rt_tag_receive_timeout rt [st_next_tag s] timeout = Ok (rt_tag_receive rt [st_next_tag s]) ->
  fst (start_timeout rt b arg timeout s) = fst (start rt b arg s).
Proof.
  intros H.
  builder_cases b; autounfold with builder; cbn; try reflexivity;
    rewrite H; destruct (rt_tag_receive _ _) as [[]|]; reflexivity.
Qed.

(** C9: in [start_as] every named-spawn failure other than
    [NameAlreadyRegistered] reaches [unreachable!()] and panics; when the
    spawn only ever succeeds or reports [NameAlreadyRegistered], [start_as]
    on a supported builder always returns a value. *)
Theorem start_as_other_errors_unreachable (rt : Runtime A E) (b : AbstractProcessBuilder)
  (name : string) (arg : A) (s : St A) :
  supported b = true ->
  (forall e, (forall c, rt_name_spawn rt (process_name name) c = Err e) ->
     (forall nid pid, e <> LunaticNameAlreadyRegistered nid pid) ->
     fst (start_as process_name rt b name arg s) = Abort (Unreachable "")) /\
  ((forall c, match rt_name_spawn rt (process_name name) c with
              | Ok _ | Err (LunaticNameAlreadyRegistered _ _) => True
              | Err (LunaticOther _) => False
              end) ->
     exists r, fst (start_as process_name rt b name arg s) = Done r).
Proof.
  intros Hs.
  builder_cases b; autounfold with builder; cbn;
    (split;
     [ intros e He Hne;
       match goal with |- context [rt_name_spawn _ _ ?c] => rewrite (He c) end;
       destruct e as [nid pid|code]; [exfalso; exact (Hne nid pid eq_refl) | reflexivity]
     | intros Hok;
       match goal with |- context [rt_name_spawn _ _ ?c] =>
         specialize (Hok c); destruct (rt_name_spawn _ _ c) as [?|[?|?]]
       end;
       [destruct (rt_tag_receive _ _) as [[]|]; eexists; reflexivity
       | eexists; reflexivity
       | contradiction] ]).
Qed.

(** C7: [link_with], [configure] and [on_node] return a builder in which
    only the targeted field changed; [link] does the same with a tag freshly
    generated by [Tag::new()], its only runtime call. *)
Theorem builder_methods_set_one_field (b : AbstractProcessBuilder) (t : Tag)
  (k : ConfigRef) (n : Z) (s : St A) :
  link_with b t = mkBuilder (Some t) (config b) (node b) /\
  configure b k = mkBuilder (link b) (Some k) (node b) /\
  on_node b n = mkBuilder (link b) (config b) (Some n) /\
  link_ b s = (Done (mkBuilder (Some (st_next_tag s)) (config b) (node b)), after_tag s).
Proof.
  repeat split.
Qed.

End Proofs.

(** Resolves every [match] in the goal by case analysis. *)
Ltac split_matches :=
  repeat match goal with
         | |- context [match ?x with _ => _ end] => destruct x
         end.

Section Extras.
Variables A E : Type.
Variable process_name : string -> string.

(** The setters of the builder: a later [link_with], [configure] or
    [on_node] replaces the earlier value of its field, and setters of
    different fields commute. *)
Theorem builder_setters_override_and_commute (b : AbstractProcessBuilder)
  (t1 t2 : Tag) (k1 k2 : ConfigRef) (n1 n2 : Z) :
  link_with (link_with b t1) t2 = link_with b t2 /\
  configure (configure b k1) k2 = configure b k2 /\
  on_node (on_node b n1) n2 = on_node b n2 /\
  link_with (configure b k1) t1 = configure (link_with b t1) k1 /\
  link_with (on_node b n1) t1 = on_node (link_with b t1) n1 /\
  configure (on_node b n1) k1 = on_node (configure b k1) n1.
Proof.
  destruct b; repeat split.
Qed.

(** Which chained builders avoid the unsupported linked + remote case:
    [new] does, [configure] keeps the status, linking is fine exactly when no
    node is set, and placing on a node is fine exactly when no link is set. *)
Theorem builder_supported_after_setters (b : AbstractProcessBuilder) (t : Tag)
  (k : ConfigRef) (n : Z) (s : St A) :
  supported new = true /\
  supported (configure b k) = supported b /\
  supported (link_with b t) = negb (is_some (node b)) /\
  supported (on_node b n) = negb (is_some (link b)) /\
  (forall b' s', link_ b s = (Done b', s') -> supported b' = negb (is_some (node b))).
Proof.
  destruct b as [l k0 [n0|]]; (split; [reflexivity|]);
    destruct l; repeat split; intros b' s' H; cbn in H; inversion H; reflexivity.
Qed.

(** Each of [start], [start_timeout], [start_as] and [link] draws exactly one
    tag from [Tag::new()], whatever its outcome (panics included). *)
Theorem calls_draw_one_tag (rt : Runtime A E) (b : AbstractProcessBuilder) (arg : A)
  (timeout : Duration) (name : string) (s : St A) :
  st_next_tag (snd (start rt b arg s)) = st_next_tag s + 1 /\
  st_next_tag (snd (start_timeout rt b arg timeout s)) = st_next_tag s + 1 /\
  st_next_tag (snd (start_as process_name rt b name arg s)) = st_next_tag s + 1 /\
  st_next_tag (snd (link_ b s)) = st_next_tag s + 1.
Proof.
  builder_cases b; autounfold with builder; cbn; split_matches; repeat split.
Qed.


(** On a supported builder, [start] never panics, and [start_timeout]
    panics only when the timed receive fails with an error other than a
    timeout. *)
Theorem start_supported_no_panic (rt : Runtime A E) (b : AbstractProcessBuilder)
  (arg : A) (timeout : Duration) (s : St A) :
  supported b = true ->
  (exists r, fst (start rt b arg s) = Done r) /\
  (forall p, fst (start_timeout rt b arg timeout s) = Abort p ->
     exists code, rt_tag_receive_timeout rt [st_next_tag s] timeout = Err (MailboxOther code)).
Proof.
  intros Hs.
  builder_cases b; autounfold with builder; cbn;
    (split; [destruct (rt_tag_receive _ _) as [[]|]; eexists; reflexivity|]);
    intros p; destruct (rt_tag_receive_timeout _ _ _) as [[[]|]|[|code]]; cbn;
    intros H; try discriminate; exists code; reflexivity.
Qed.

(** When registration always succeeds with the process [spawn] would have
    produced, [start_as] returns what [start] returns. *)
Theorem start_as_agrees_with_start (rt : Runtime A E) (b : AbstractProcessBuilder)
  (name : string) (arg : A) (s : St A) :
  (forall c, rt_name_spawn rt (process_name name) c = Ok (rt_spawn rt c)) ->
  fst (start_as process_name rt b name arg s) = fst (start rt b arg s).
Proof.
  intros H.
  builder_cases b; autounfold with builder; cbn; try reflexivity;
    rewrite H; cbn; destruct (rt_tag_receive _ _) as [[]|]; reflexivity.
Qed.

(** The full outcome of [start_as] on a supported builder: one named spawn
    with payload (caller, handshake tag, argument); on success a wait on the
    handshake tag whose reply decides the result; on [NameAlreadyRegistered]
    the holder's handle with no wait; on any other error a panic with no
    wait. *)
Theorem start_as_outcomes (rt : Runtime A E) (b : AbstractProcessBuilder)
  (name : string) (arg : A) (s : St A) :
  supported b = true ->
  let t0 := st_next_tag s in
  let key := process_name name in
  exists c : SpawnCall A,
    call_data c = (rt_this rt, t0, arg) /\
    start_as process_name rt b name arg s =
      match rt_name_spawn rt key c with
      | Ok p =>
          (match rt_tag_receive rt [t0] with
           | Ok _ => Done (Ok (mkProcessRef p))
           | Err e => Done (Err e)
           end,
           mkSt (t0 + 1) (st_trace s ++ [EvTagNew t0; EvNameSpawn key c; EvTagReceive [t0]]))
      | Err (LunaticNameAlreadyRegistered nid pid) =>
          (Done (Err (NameAlreadyRegistered (mkProcessRef (mkProcess nid pid)))),
           mkSt (t0 + 1) (st_trace s ++ [EvTagNew t0; EvNameSpawn key c]))
      | Err (LunaticOther _) =>
          (Abort (Unreachable ""),
           mkSt (t0 + 1) (st_trace s ++ [EvTagNew t0; EvNameSpawn key c]))
      end.
Proof.
  intros Hs t0 key.
  builder_cases b; autounfold with builder; cbn;
    match goal with |- context [rt_name_spawn _ _ ?c] => exists c end;
    (split; [reflexivity|]);
    destruct (rt_name_spawn _ _ _) as [p|[nid pid|code]]; cbn;
    try destruct (rt_tag_receive _ _) as [[]|]; cbn;
    rewrite <- !app_assoc; reflexivity.
Qed.

(** [start_timeout] returns [Err(TimedOut)] only when the timed receive
    timed out or the init reply itself carried [TimedOut]. *)
Theorem start_timeout_timed_out_sources (rt : Runtime A E) (b : AbstractProcessBuilder)
  (arg : A) (timeout : Duration) (s : St A) :
  fst (start_timeout rt b arg timeout s) = Done (Err TimedOut) ->
  rt_tag_receive_timeout rt [st_next_tag s] timeout = Err MailboxTimedOut \/
  rt_tag_receive_timeout rt [st_next_tag s] timeout = Ok (Err TimedOut).
Proof.
  builder_cases b; autounfold with builder; cbn; try discriminate;
    destruct (rt_tag_receive_timeout _ _ _) as [[[]|e]|[|code]]; cbn;
    intros H; try discriminate; inversion H; subst; auto.
Qed.

End Extras.

Module CounterProofs.
Import CounterExample.

(** C8: [init] builds [Counter(start)], [increment] adds one to a state
    below [u32::MAX], [count] returns the state; from [0], three increments
    then a count reply [3] (with or without overflow checks). *)
Theorem counter_scenario (mode : OverflowChecks) (h : ProcessRef) :
  (forall start, init h start = mkCounter start) /\
  (forall c, 0 <= c < u32_max -> increment mode (mkCounter c) = Done (mkCounter (c + 1))) /\
  (forall c, count c = c0 c) /\
  and_then (increment mode (init h 0)) (fun c1 =>
  and_then (increment mode c1) (fun c2 =>
  and_then (increment mode c2) (fun c3 => Done (count c3)))) = Done 3.
Proof.
  split; [reflexivity|].
  split.
  { intros c Hc. unfold increment, u32_add; cbn [c0].
    destruct (Z.leb_spec (c + 1) u32_max); [reflexivity | lia]. }
  split; [reflexivity|].
  destruct mode; reflexivity.
Qed.

(** C10: [increment] on a [u32] state yields [(count + 1) mod 2^32], except
    that with overflow checks [u32::MAX] panics instead; without checks
    [u32::MAX] wraps to [0], so the counter is not monotone. *)
Theorem counter_increment_wraps (mode : OverflowChecks) (c : Z) :
  0 <= c <= u32_max ->
  (increment mode (mkCounter c) = Done (mkCounter ((c + 1) mod 2 ^ 32)) \/
   (mode = ChecksOn /\ c = u32_max /\
    increment mode (mkCounter c) = Abort (ArithmeticOverflow "attempt to add with overflow"))) /\
  increment ChecksOff (mkCounter u32_max) = Done (mkCounter 0) /\
  increment ChecksOn (mkCounter u32_max)
    = Abort (ArithmeticOverflow "attempt to add with overflow") /\
  exists c', increment ChecksOff (mkCounter u32_max) = Done c' /\ c0 c' < u32_max.
Proof.
  intros Hc.
  split; [|split; [reflexivity|split; [reflexivity|eexists; split; [reflexivity|]]]].
  - unfold increment, u32_add; cbn [c0].
    change (2 ^ 32) with u32_modulus.
    destruct (Z.leb_spec (c + 1) u32_max).
    + left. rewrite Z.mod_small; [reflexivity|]. unfold u32_max, u32_modulus in *. lia.
    + destruct mode; [left; reflexivity|].
      right. unfold u32_max, u32_modulus in *. repeat split; lia.
  - cbn. reflexivity.
Qed.

End CounterProofs.

Module CounterExtras.
Import CounterExample.

Lemma increment_below_max (mode : OverflowChecks) (c : Z) :
  c < u32_max -> increment mode (mkCounter c) = Done (mkCounter (c + 1)).
Proof.
  intros H. unfold increment, u32_add; cbn [c0].
  destruct (Z.leb_spec (c + 1) u32_max); [reflexivity | lia].
Qed.

Lemma increment_off_mod (c : Z) :
  0 <= c <= u32_max ->
  increment ChecksOff (mkCounter c) = Done (mkCounter ((c + 1) mod u32_modulus)).
Proof.
  intros H. unfold increment, u32_add; cbn [c0].
  destruct (Z.leb_spec (c + 1) u32_max); [|reflexivity].
  rewrite Z.mod_small; [reflexivity|]. unfold u32_max, u32_modulus in *. lia.
Qed.

(** With or without overflow checks, [n] increments from a state [c] with
    [c + n <= u32::MAX] leave the counter at [c + n]. *)
Theorem increments_in_range (mode : OverflowChecks) (n : nat) (c : Z) :
  0 <= c -> c + Z.of_nat n <= u32_max ->
  increments mode n (mkCounter c) = Done (mkCounter (c + Z.of_nat n)).
Proof.
  revert c; induction n as [|n IH]; intros c H0 H1; cbn [increments].
  - rewrite Z.add_0_r; reflexivity.
  - rewrite increment_below_max by lia. cbn [and_then].
    rewrite IH by lia. f_equal; f_equal; lia.
Qed.

(** Without overflow checks, [n] increments from any [u32] state [c] leave
    the counter at [(c + n) mod 2^32]. *)
Theorem increments_wrapping (n : nat) (c : Z) :
  0 <= c <= u32_max ->
  increments ChecksOff n (mkCounter c) = Done (mkCounter ((c + Z.of_nat n) mod 2 ^ 32)).
Proof.
  change (2 ^ 32) with u32_modulus.
  revert c; induction n as [|n IH]; intros c Hc; cbn [increments].
  - rewrite Z.add_0_r, Z.mod_small; [reflexivity|]. unfold u32_max, u32_modulus in *. lia.
  - rewrite increment_off_mod by lia. cbn [and_then].
    rewrite IH.
    + f_equal; f_equal. rewrite Z.add_mod_idemp_l by (unfold u32_modulus; lia).
      f_equal; lia.
    + assert (0 <= (c + 1) mod u32_modulus < u32_modulus)
        by (apply Z.mod_pos_bound; unfold u32_modulus; lia).
      unfold u32_max; lia.
Qed.

(** With overflow checks, [n] increments from a [u32] state [c] with
    [c + n > u32::MAX] panic with the overflow message. *)
Theorem increments_checked_overflow (n : nat) (c : Z) :
  0 <= c <= u32_max -> u32_max < c + Z.of_nat n ->
  increments ChecksOn n (mkCounter c) = Abort (ArithmeticOverflow "attempt to add with overflow").
Proof.
  revert c; induction n as [|n IH]; intros c H0 H1; cbn [increments].
  - lia.
  - destruct (Z.eq_dec c u32_max) as [->|Hne].
    + reflexivity.
    + rewrite increment_below_max by lia. cbn [and_then]. apply IH; lia.
Qed.


End CounterExtras.


Lemma link_on_node_fails_before_spawn_witness :
  (link b_linked_remote <> None /\ node b_linked_remote <> None) /\
  (start rt_ok b_linked_remote 0 s0 = (Abort (Unimplemented unsupported_msg), after_tag s0) /\
   start_timeout rt_ok b_linked_remote 0 10 s0 = (Abort (Unimplemented unsupported_msg), after_tag s0) /\
   start_as name_key rt_ok b_linked_remote "counter" 0 s0
     = (Abort (Unimplemented unsupported_msg), after_tag s0)).
Proof.
  split; [split; discriminate|].
  apply link_on_node_fails_before_spawn; discriminate.
Defined.

Lemma start_propagates_init_reply_witness :
  supported b_linked_config = true /\
  exists c : SpawnCall Z,
    In (EvSpawn c) (st_trace (snd (start rt_bad_arg b_linked_config 0 s0))) /\
    fst (start rt_bad_arg b_linked_config 0 s0)
      = match rt_tag_receive rt_bad_arg [st_next_tag s0] with
        | Ok _ => Done (Ok (mkProcessRef (rt_spawn rt_bad_arg c)))
        | Err e => Done (Err e)
        end /\
    ((exists h, fst (start rt_bad_arg b_linked_config 0 s0) = Done (Ok h))
       <-> rt_tag_receive rt_bad_arg [st_next_tag s0] = Ok tt) /\
    (forall e, rt_tag_receive rt_bad_arg [st_next_tag s0] = Err e ->
       fst (start rt_bad_arg b_linked_config 0 s0) = Done (Err e)).
Proof.
  split; [reflexivity|].
  apply (start_propagates_init_reply Z string rt_bad_arg b_linked_config 0 s0).
  reflexivity.
Defined.

Lemma start_timeout_receive_failure_witness :
  supported b_linked_config = true /\
  (rt_tag_receive_timeout rt_bad_arg [st_next_tag s0] 10 = Err MailboxTimedOut ->
     fst (start_timeout rt_bad_arg b_linked_config 0 10 s0) = Done (Err TimedOut)) /\
  (forall err, err <> MailboxTimedOut ->
     rt_tag_receive_timeout rt_bad_arg [st_next_tag s0] 10 = Err err ->
     fst (start_timeout rt_bad_arg b_linked_config 0 10 s0)
       = Abort (Unreachable unreachable_timeout_msg)).
Proof.
  split; [reflexivity|].
  apply (start_timeout_receive_failure Z string rt_bad_arg b_linked_config 0 10 s0).
  reflexivity.
Defined.

Lemma start_as_name_taken_witness :
  supported new = true /\
  exists c : SpawnCall Z,
    start_as name_key rt_taken new "counter" 0 s0 =
      (Done (Err (NameAlreadyRegistered (mkProcessRef (mkProcess 3 9)))),
       mkSt (st_next_tag s0 + 1)
            (st_trace s0 ++ [EvTagNew (st_next_tag s0); EvNameSpawn (name_key "counter") c])).
Proof.
  split; [reflexivity|].
  apply (start_as_name_taken Z string name_key rt_taken new "counter" 0 s0 3 9).
  - reflexivity.
  - intros c. reflexivity.
Defined.

Lemma start_timeout_agrees_with_start_witness :
  rt_tag_receive_timeout rt_ok [st_next_tag s0] 10 = Ok (rt_tag_receive rt_ok [st_next_tag s0]) /\
  fst (start_timeout rt_ok b_linked_config 0 10 s0) = fst (start rt_ok b_linked_config 0 s0).
Proof.
  split; [reflexivity|].
  apply (start_timeout_agrees_with_start Z string rt_ok b_linked_config 0 10 s0).
  reflexivity.
Defined.

Lemma start_as_other_errors_unreachable_witness :
  supported new = true /\
  (forall e, (forall c, rt_name_spawn rt_taken (name_key "counter") c = Err e) ->
     (forall nid pid, e <> LunaticNameAlreadyRegistered nid pid) ->
     fst (start_as name_key rt_taken new "counter" 0 s0) = Abort (Unreachable "")) /\
  ((forall c, match rt_name_spawn rt_taken (name_key "counter") c with
              | Ok _ | Err (LunaticNameAlreadyRegistered _ _) => True
              | Err (LunaticOther _) => False
              end) ->
     exists r, fst (start_as name_key rt_taken new "counter" 0 s0) = Done r).
Proof.
  split; [reflexivity|].
  apply (start_as_other_errors_unreachable Z string name_key rt_taken new "counter" 0 s0).
  reflexivity.
Defined.

Lemma counter_increment_wraps_witness :
  (0 <= 5 <= CounterExample.u32_max) /\
  ((CounterExample.increment CounterExample.ChecksOff (CounterExample.mkCounter 5)
      = Done (CounterExample.mkCounter ((5 + 1) mod 2 ^ 32)) \/
    (CounterExample.ChecksOff = CounterExample.ChecksOn /\ 5 = CounterExample.u32_max /\
     CounterExample.increment CounterExample.ChecksOff (CounterExample.mkCounter 5)
       = Abort (ArithmeticOverflow "attempt to add with overflow"))) /\
   CounterExample.increment CounterExample.ChecksOff (CounterExample.mkCounter CounterExample.u32_max)
     = Done (CounterExample.mkCounter 0) /\
   CounterExample.increment CounterExample.ChecksOn (CounterExample.mkCounter CounterExample.u32_max)
     = Abort (ArithmeticOverflow "attempt to add with overflow") /\
   exists c', CounterExample.increment CounterExample.ChecksOff
                (CounterExample.mkCounter CounterExample.u32_max) = Done c' /\
              CounterExample.c0 c' < CounterExample.u32_max).
Proof.
  split; [unfold CounterExample.u32_max, CounterExample.u32_modulus; lia|].
  apply CounterProofs.counter_increment_wraps.
  unfold CounterExample.u32_max, CounterExample.u32_modulus; lia.
Defined.

(** The spec's scenario: [link().configure(cfg)] with an init failing with
    ["bad-arg"] yields [Err(Custom("bad-arg"))]. *)
Example bad_arg_scenario :
  fst (start rt_bad_arg b_linked_config 0 s0) = Done (Err (Custom "bad-arg"%string)).
Proof. reflexivity. Qed.

(** The spec's scenario: [on_node(7)] with [link()] panics before spawning. *)
Example linked_remote_scenario :
  st_trace (snd (start rt_ok b_linked_remote 0 s0)) = [EvTagNew 100].
Proof. reflexivity. Qed.


Lemma start_supported_no_panic_witness :
  supported b_linked_config = true /\
  (exists r, fst (start rt_bad_arg b_linked_config 0 s0) = Done r) /\
  (forall p, fst (start_timeout rt_bad_arg b_linked_config 0 10 s0) = Abort p ->
     exists code, rt_tag_receive_timeout rt_bad_arg [st_next_tag s0] 10 = Err (MailboxOther code)).
Proof.
  split; [reflexivity|].
  apply (start_supported_no_panic Z string rt_bad_arg b_linked_config 0 10 s0).
  reflexivity.
Defined.

Lemma start_as_agrees_with_start_witness :
  (forall c, rt_name_spawn rt_ok (name_key "counter") c = Ok (rt_spawn rt_ok c)) /\
  fst (start_as name_key rt_ok b_linked_config "counter" 0 s0)
    = fst (start rt_ok b_linked_config 0 s0).
Proof.
  split; [intros c; reflexivity|].
  apply (start_as_agrees_with_start Z string name_key rt_ok b_linked_config "counter" 0 s0).
  intros c; reflexivity.
Defined.

Lemma start_as_outcomes_witness :
  supported new = true /\
  exists c : SpawnCall Z,
    call_data c = (rt_this rt_taken, st_next_tag s0, 0) /\
    start_as name_key rt_taken new "counter" 0 s0 =
      match rt_name_spawn rt_taken (name_key "counter") c with
      | Ok p =>
          (match rt_tag_receive rt_taken [st_next_tag s0] with
           | Ok _ => Done (Ok (mkProcessRef p))
           | Err e => Done (Err e)
           end,
           mkSt (st_next_tag s0 + 1)
             (st_trace s0 ++ [EvTagNew (st_next_tag s0); EvNameSpawn (name_key "counter") c;
                              EvTagReceive [st_next_tag s0]]))
      | Err (LunaticNameAlreadyRegistered nid pid) =>
          (Done (Err (NameAlreadyRegistered (mkProcessRef (mkProcess nid pid)))),
           mkSt (st_next_tag s0 + 1)
             (st_trace s0 ++ [EvTagNew (st_next_tag s0); EvNameSpawn (name_key "counter") c]))
      | Err (LunaticOther _) =>
          (Abort (Unreachable ""),
           mkSt (st_next_tag s0 + 1)
             (st_trace s0 ++ [EvTagNew (st_next_tag s0); EvNameSpawn (name_key "counter") c]))
      end.
Proof.
  split; [reflexivity|].
  apply (start_as_outcomes Z string name_key rt_taken new "counter" 0 s0).
  reflexivity.
Defined.

Lemma start_timeout_timed_out_sources_witness :
  fst (start_timeout rt_bad_arg b_linked_config 0 10 s0) = Done (Err TimedOut) /\
  (rt_tag_receive_timeout rt_bad_arg [st_next_tag s0] 10 = Err MailboxTimedOut \/
   rt_tag_receive_timeout rt_bad_arg [st_next_tag s0] 10 = Ok (Err TimedOut)).
Proof.
  split; [reflexivity|].
  apply (start_timeout_timed_out_sources Z string rt_bad_arg b_linked_config 0 10 s0).
  reflexivity.
Defined.

Lemma increments_in_range_witness :
  (0 <= 0 /\ 0 + Z.of_nat 3 <= CounterExample.u32_max) /\
  increments CounterExample.ChecksOn 3 (CounterExample.mkCounter 0)
    = Done (CounterExample.mkCounter (0 + Z.of_nat 3)).
Proof.
  split; [unfold CounterExample.u32_max, CounterExample.u32_modulus; lia|].
  apply CounterExtras.increments_in_range;
    unfold CounterExample.u32_max, CounterExample.u32_modulus; lia.
Defined.

Lemma increments_wrapping_witness :
  (0 <= CounterExample.u32_max - 1 <= CounterExample.u32_max) /\
  increments CounterExample.ChecksOff 3 (CounterExample.mkCounter (CounterExample.u32_max - 1))
    = Done (CounterExample.mkCounter ((CounterExample.u32_max - 1 + Z.of_nat 3) mod 2 ^ 32)).
Proof.
  split; [unfold CounterExample.u32_max, CounterExample.u32_modulus; lia|].
  apply CounterExtras.increments_wrapping.
  unfold CounterExample.u32_max, CounterExample.u32_modulus; lia.
Defined.

Lemma increments_checked_overflow_witness :
  (0 <= CounterExample.u32_max - 1 <= CounterExample.u32_max /\
   CounterExample.u32_max < CounterExample.u32_max - 1 + Z.of_nat 3) /\
  increments CounterExample.ChecksOn 3 (CounterExample.mkCounter (CounterExample.u32_max - 1))
    = Abort (ArithmeticOverflow "attempt to add with overflow").
Proof.
  split; [unfold CounterExample.u32_max, CounterExample.u32_modulus; lia|].
  apply CounterExtras.increments_checked_overflow;
    unfold CounterExample.u32_max, CounterExample.u32_modulus; lia.
Defined.

